(** * Dual moving-average crossover strategy (src/main.py)

    A shallow embedding of [DualMovingAverageStrategy] and of the report
    printed after the run.  The strategy's two callbacks, [notify_order] and
    [next], are written in a state monad over the objects they read and
    mutate; the report is written in an output-and-exception monad over the
    values the analyzers return. *)

From Stdlib Require Import ZArith QArith Lia.
From stdpp Require Import base option list strings.

Local Open Scope Z_scope.

(** ** Orders, strategy and the objects the strategy shares with the broker *)

Inductive Side := BUY | SELL.

(** The statuses named by [notify_order] (lines 50-62), and [Created], the
    status an order has before it is submitted. *)
Inductive Status :=
  | Created | Submitted | Accepted | Completed | Canceled | Margin | Rejected.

Record Order := mkOrder { side : Side; size : Z; status : Status }.

#[export] Instance Side_eq_dec : EqDecision Side.
Proof. solve_decision. Defined.
#[export] Instance Status_eq_dec : EqDecision Status.
Proof. solve_decision. Defined.
#[export] Instance Order_eq_dec : EqDecision Order.
Proof. solve_decision. Defined.

(** [params] of the class (lines 11-14): the two periods and nothing else. *)
Record Params := mkParams { fast_ma_period : nat; slow_ma_period : nat }.

Definition default_params : Params :=
  {| fast_ma_period := 50; slow_ma_period := 200 |}.

(** The strategy instance: its parameters and [self.order], a reference to an
    order object owned by the broker (its index in the broker's book), or
    [None]. *)
Record Strategy := mkStrategy { params : Params; order : option nat }.

(** Everything the callbacks can see: the strategy, the broker's orders, the
    position ([self.position.size]) and the current value of the crossover
    line ([self.crossover], one of -1, 0, 1). *)
Record World := mkWorld {
  strategy : Strategy;
  book : list Order;
  position : Z;
  crossover : Z
}.

(** ** The state monad of the callbacks *)

Definition St (A : Type) : Type := World -> A * World.

#[export] Instance St_ret : MRet St := fun A a w => (a, w).
#[export] Instance St_bind : MBind St :=
  fun A B f m w => let (a, w') := m w in f a w'.

Definition gets {A} (f : World -> A) : St A := fun w => (f w, w).
Definition modify (f : World -> World) : St unit := fun w => (tt, f w).
Definition exec {A} (m : St A) (w : World) : World := snd (m w).

(** [self.order = r] *)
Definition set_order (r : option nat) : St unit :=
  modify (fun w =>
    {| strategy := {| params := params (strategy w); order := r |};
       book := book w; position := position w; crossover := crossover w |}).

(** The broker registers a new order, in status CREATED, and hands back a
    reference to it. *)
Definition submit (o : Order) : St nat :=
  fun w => (length (book w),
            {| strategy := strategy w; book := book w ++ [o];
               position := position w; crossover := crossover w |}).

(** [self.buy(size=n)] *)
Definition buy (n : Z) : St nat := submit (mkOrder BUY n Created).

(** Modelled from the spec: [self.close()] is the framework's; section 4.3
    rule 3 has it emit a SELL intent sized to fully close the current
    position. *)
Definition close : St (option nat) :=
  pos ← gets position;
  r ← submit (mkOrder SELL pos Created);
  mret (Some r).

(** [self.log]: the print is commented out, the call has no effect. *)
Definition log (txt : string) : St unit := mret tt.

(** ** The callbacks *)

(** [notify_order] (lines 45-66). *)
Definition notify_order (o : Order) : St unit :=
  if bool_decide (status o ∈ [Submitted; Accepted]) then
    mret tt
  else
    (if bool_decide (status o ∈ [Completed]) then
       match side o with
       | BUY => mret tt
       | SELL => mret tt
       end
     else if bool_decide (status o ∈ [Canceled; Margin; Rejected]) then
       log "Order Canceled/Margin/Rejected"
     else mret tt);;
    set_order None.

(** [next] (lines 68-91). *)
Definition next : St unit :=
  o ← gets (fun w => order (strategy w));
  match o with
  | Some _ => mret tt
  | None =>
      pos ← gets position;
      if bool_decide (pos = 0) then
        c ← gets crossover;
        if bool_decide (0 < c) then
          r ← buy 10;
          set_order (Some r)
        else mret tt
      else
        c ← gets crossover;
        if bool_decide (c < 0) then
          r ← close;
          set_order r
        else mret tt
  end.

(** The orders [w'] has and [w] had not. *)
Definition emitted (w w' : World) : list Order :=
  drop (length (book w)) (book w').

(** ** The replay: bars and broker notifications *)

(** The statuses after which [notify_order] resets [self.order] on purpose
    (lines 54 and 62). *)
Definition terminal (s : Status) : bool :=
  match s with
  | Completed | Canceled | Margin | Rejected => true
  | _ => false
  end.

(** Modelled from the spec: the broker and its order lifecycle are the
    framework's and are not in src.  Section 4.4 has an order go from
    CREATED to SUBMITTED to ACCEPTED and then to one of COMPLETED, CANCELED,
    MARGIN, REJECTED.  A terminal status is also allowed straight from
    SUBMITTED, so every run of that chain is a run of this relation. *)
Definition lifecycle (s s' : Status) : bool :=
  match s, s' with
  | Created, Submitted => true
  | Submitted, Accepted => true
  | (Submitted | Accepted), (Completed | Canceled | Margin | Rejected) => true
  | _, _ => false
  end.

(** Outstanding: SUBMITTED or ACCEPTED. *)
Definition outstanding (o : Order) : bool :=
  match status o with
  | Submitted | Accepted => true
  | _ => false
  end.

(** Live: not yet in a terminal status. *)
Definition live (o : Order) : bool := negb (terminal (status o)).

Definition outstanding_orders (w : World) : list Order :=
  filter (fun o => outstanding o = true) (book w).

(** Modelled from the spec: the fill of section 4.4, BUY adds the order's
    size to the position and SELL subtracts it; any other terminal status
    leaves the position as it is. *)
Definition fill (o : Order) (s' : Status) (pos : Z) : Z :=
  match s' with
  | Completed =>
      match side o with
      | BUY => pos + size o
      | SELL => pos - size o
      end
  | _ => pos
  end.

Definition with_status (o : Order) (s' : Status) : Order :=
  {| side := side o; size := size o; status := s' |}.

(** Modelled from the spec: the framework's resolution of an order, not in
    src.  The broker moves order [id] along the lifecycle to status [s'],
    applies the fill, and the status change is notified to the strategy
    through [notify_order]. *)
Definition advance (id : nat) (s' : Status) (w : World) : option World :=
  o ← book w !! id;
  if lifecycle (status o) s' then
    let o' := with_status o s' in
    Some (exec (notify_order o')
            {| strategy := strategy w; book := <[id := o']> (book w);
               position := fill o s' (position w);
               crossover := crossover w |})
  else None.

Definition with_crossover (c : Z) (w : World) : World :=
  {| strategy := strategy w; book := book w;
     position := position w; crossover := c |}.

(** A new bar: the indicators take their new value and [next] runs. *)
Definition on_bar (c : Z) (w : World) : World :=
  exec next (with_crossover c w).

Inductive Event :=
  | Bar (c : Z)
  | Advance (id : nat) (s' : Status).

Definition step (e : Event) (w : World) : option World :=
  match e with
  | Bar c => Some (on_bar c w)
  | Advance id s' => advance id s' w
  end.

(** Modelled from the spec: the replay loop is the framework's
    ([cerebro.run()], line 138).  A run is any sequence of bars, each of which
    runs [next], and of status changes of orders in the book. *)
Fixpoint replay (evs : list Event) (w : World) : option World :=
  match evs with
  | [] => Some w
  | e :: evs' => w' ← step e w; replay evs' w'
  end.

(** The start of a run: [self.order = None] (line 38), no order, flat. *)
Definition init (p : Params) : World :=
  {| strategy := {| params := p; order := None |};
     book := []; position := 0; crossover := 0 |}.

(** ** The moving average *)

(** Modelled from the spec: [bt.indicators.SimpleMovingAverage] is the
    framework's; src only builds two of them (lines 25-30).  Section 4.1 has
    the indicator maintain a running sum and a trailing buffer of at most
    [p] prices: a new price enters the buffer and is added to the sum, and
    once the buffer is full the price leaving it is subtracted.  After the
    [p]-th price the value is the sum divided by [p]; before that there is no
    value.  Prices are rationals. *)
Record Sma := mkSma { window : list Q; running : Q }.

Definition sma_empty : Sma := {| window := []; running := 0%Q |}.

(** Modelled from the spec: one new price (section 4.1): it enters the
    buffer and the sum; once [p] prices are held, the oldest leaves both. *)
Definition sma_push (p : nat) (s : Sma) (x : Q) : Sma :=
  if (length (window s) <? p)%nat then
    {| window := window s ++ [x]; running := (running s + x)%Q |}
  else
    match window s with
    | [] => s
    | leaving :: rest =>
        {| window := rest ++ [x]; running := (running s - leaving + x)%Q |}
    end.

(** Modelled from the spec: the value after a price (section 4.1): the mean
    of the buffer once it holds [p] prices, no value before. *)
Definition sma_value (p : nat) (s : Sma) : option Q :=
  if (length (window s) =? p)%nat
  then Some (running s / inject_Z (Z.of_nat p))%Q
  else None.

Fixpoint sma_run (p : nat) (s : Sma) (prices : list Q) : list (option Q) :=
  match prices with
  | [] => []
  | x :: rest =>
      let s' := sma_push p s x in
      sma_value p s' :: sma_run p s' rest
  end.

(** Modelled from the spec: the indicator's line, one entry per bar
    (section 3, IndicatorSeries), absent from src with the indicator. *)
Definition SimpleMovingAverage (p : nat) (prices : list Q) : list (option Q) :=
  sma_run p sma_empty prices.

Definition Qsum (l : list Q) : Q := foldr Qplus 0%Q l.

(** The arithmetic mean the claim speaks of. *)
Definition mean (l : list Q) : Q :=
  (Qsum l / inject_Z (Z.of_nat (length l)))%Q.

(** ** The report (lines 143-179) *)

(** What [get_analysis()] hands to the report: [None], numbers, and
    dictionaries that are read by key or, for the framework's ordered
    dictionaries, by attribute. *)
#[warnings="-register-all"] Inductive PyVal :=
  | PyNone
  | PyInt (z : Z)
  | PyFloat (q : Q)
  | PyDict (items : list (string * PyVal)).

Inductive Exn := KeyError | TypeError | ZeroDivisionError.

(** A printed line: literal text, a number formatted with [.2f] or [.2%],
    or a value formatted with no format specification. *)
Inductive Piece :=
  | Text (s : string)
  | Fixed2 (q : Q)
  | Percent2 (q : Q)
  | Str (v : PyVal).

Definition Line := list Piece.

(** Printing and raising: the lines printed so far, and a result or the
    exception that ended the report. *)
Definition Rep (A : Type) : Type := list Line -> (Exn + A) * list Line.

#[export] Instance Rep_ret : MRet Rep := fun A a out => (inr a, out).
#[export] Instance Rep_bind : MBind Rep :=
  fun A B f m out =>
    match m out with
    | (inl e, out') => (inl e, out')
    | (inr a, out') => f a out'
    end.

Definition raise {A} (e : Exn) : Rep A := fun out => (inl e, out).
Definition print (l : Line) : Rep unit := fun out => (inr tt, out ++ [l]).

Fixpoint assoc (k : string) (items : list (string * PyVal)) : option PyVal :=
  match items with
  | [] => None
  | (k', v) :: rest => if String.eqb k k' then Some v else assoc k rest
  end.

(** [d[k]] and [d.k]: the analyzers' dictionaries are closed when the run
    stops, so a key that is not there raises [KeyError]. *)
Definition getitem (d : PyVal) (k : string) : Rep PyVal :=
  match d with
  | PyDict items =>
      match assoc k items with
      | Some v => mret v
      | None => raise KeyError
      end
  | _ => raise TypeError
  end.

Definition getattr (d : PyVal) (k : string) : Rep PyVal := getitem d k.

Definition number (v : PyVal) : option Q :=
  match v with
  | PyInt z => Some (inject_Z z)
  | PyFloat q => Some q
  | _ => None
  end.

(** [v is not None] *)
Definition is_not_none (v : PyVal) : bool :=
  match v with
  | PyNone => false
  | _ => true
  end.

(** [a > b] *)
Definition py_gt (a b : PyVal) : Rep bool :=
  match number a, number b with
  | Some x, Some y => mret (negb (Qle_bool x y))
  | _, _ => raise TypeError
  end.

(** [a / b] *)
Definition py_truediv (a b : PyVal) : Rep PyVal :=
  match number a, number b with
  | Some x, Some y =>
      if Qeq_bool y 0 then raise ZeroDivisionError
      else mret (PyFloat (x / y))
  | _, _ => raise TypeError
  end.

(** [a * b] *)
Definition py_mul (a b : PyVal) : Rep PyVal :=
  match a, b with
  | PyInt x, PyInt y => mret (PyInt (x * y))
  | _, _ =>
      match number a, number b with
      | Some x, Some y => mret (PyFloat (x * y))
      | _, _ => raise TypeError
      end
  end.

(** [f'{v:.2f}'] and [f'{v:.2%}']: a number is formatted, anything else
    raises [TypeError]. *)
Definition format_2f (v : PyVal) : Rep Piece :=
  match number v with
  | Some q => mret (Fixed2 q)
  | None => raise TypeError
  end.

Definition format_2pct (v : PyVal) : Rep Piece :=
  match number v with
  | Some q => mret (Percent2 q)
  | None => raise TypeError
  end.

Definition na_line : Line :=
  [Text "Sharpe Ratio: N/A (Might require more data or trades)"].

Definition no_trades_line : Line :=
  [Text "No trades closed during the backtest period."].

(** Lines 147-152. *)
Definition report_sharpe (sharpe_ratio : PyVal) : Rep unit :=
  if is_not_none sharpe_ratio then
    v ← getitem sharpe_ratio "sharperatio";
    s ← format_2f v;
    print [Text "Sharpe Ratio: "; s]
  else
    print na_line.

(** Lines 154-157. *)
Definition report_drawdown (drawdown_analysis : PyVal) : Rep unit :=
  m ← getattr drawdown_analysis "max";
  d ← getattr m "drawdown";
  s ← format_2f d;
  print [Text "Max Drawdown: "; s; Text "%"];;
  m ← getattr drawdown_analysis "max";
  l ← getattr m "len";
  print [Text "Max Drawdown Duration: "; Str l; Text " days"].

(** Lines 159-162. *)
Definition report_returns (returns_analysis : PyVal) : Rep unit :=
  r ← getitem returns_analysis "rtot";
  s ← format_2pct r;
  print [Text "Total Returns: "; s];;
  r ← getitem returns_analysis "rnorm100";
  s ← format_2f r;
  print [Text "Annualized Returns: "; s; Text "%"].

(** [trade_analysis.a.b] *)
Definition attr2 (v : PyVal) (a b : string) : Rep PyVal :=
  x ← getattr v a; getattr x b.

Definition win_rate_label : Piece := Text "Win Rate: ".

(** Lines 164-179.  A leading newline in a printed string is an empty line
    before it. *)
Definition report_trades (trade_analysis : PyVal) : Rep unit :=
  closed ← attr2 trade_analysis "total" "closed";
  c ← py_gt closed (PyInt 0);
  if (c : bool) then
    print [];;
    print [Text "--- Trade Statistics ---"];;
    closed ← attr2 trade_analysis "total" "closed";
    print [Text "Total Trades: "; Str closed];;
    won ← attr2 trade_analysis "won" "total";
    print [Text "Wins: "; Str won];;
    lost ← attr2 trade_analysis "lost" "total";
    print [Text "Losses: "; Str lost];;
    won ← attr2 trade_analysis "won" "total";
    closed ← attr2 trade_analysis "total" "closed";
    r ← py_truediv won closed;
    r ← py_mul r (PyInt 100);
    s ← format_2f r;
    print [win_rate_label; s; Text "%"];;
    won ← attr2 trade_analysis "won" "total";
    c ← py_gt won (PyInt 0);
    (if (c : bool) then
       w ← getattr trade_analysis "won";
       a ← attr2 w "pnl" "average";
       s ← format_2f a;
       print [Text "Average Win: "; s]
     else mret tt);;
    lost ← attr2 trade_analysis "lost" "total";
    c ← py_gt lost (PyInt 0);
    (if (c : bool) then
       l ← getattr trade_analysis "lost";
       a ← attr2 l "pnl" "average";
       s ← format_2f a;
       print [Text "Average Loss: "; s]
     else mret tt);;
    lt ← attr2 trade_analysis "long" "total";
    lw ← attr2 trade_analysis "long" "won";
    ll ← attr2 trade_analysis "long" "lost";
    print [Text "Longs: "; Str lt; Text " (Won: "; Str lw;
           Text ", Lost: "; Str ll; Text ")"];;
    st ← attr2 trade_analysis "short" "total";
    sw ← attr2 trade_analysis "short" "won";
    sl ← attr2 trade_analysis "short" "lost";
    print [Text "Shorts: "; Str st; Text " (Won: "; Str sw;
           Text ", Lost: "; Str sl; Text ")"]
  else
    print [];;
    print no_trades_line.

(** The results of the four analyzers' [get_analysis()]. *)
Record Analysis := mkAnalysis {
  sharpe_ratio : PyVal;
  drawdown : PyVal;
  returns : PyVal;
  trade_analyzer : PyVal
}.

(** Section 6 of the main block, lines 143-179. *)
Definition report (a : Analysis) : Rep unit :=
  print [];;
  print [Text "--- Backtesting Results ---"];;
  report_sharpe (sharpe_ratio a);;
  report_drawdown (drawdown a);;
  report_returns (returns a);;
  report_trades (trade_analyzer a).

(** What the Sharpe analyzer returns when the ratio is undefined: its
    dictionary, with [None] under the key. *)
Definition sharpe_undefined : PyVal := PyDict [("sharperatio", PyNone)].

(** What the trade analyzer returns when no trade was ever opened, and when
    one was opened and never closed: no [closed] entry either way. *)
Definition trades_none : PyVal :=
  PyDict [("total", PyDict [("total", PyInt 0)])].

Definition trades_one_open : PyVal :=
  PyDict [("total", PyDict [("total", PyInt 1); ("open", PyInt 1)])].

(** A trade analysis that does carry a zero [closed] count. *)
Definition trades_zero_closed : PyVal :=
  PyDict [("total", PyDict [("total", PyInt 0); ("closed", PyInt 0)])].

(** The value or exception of a computation that prints nothing. *)
Definition eval {A} (m : Rep A) : Exn + A := fst (m []).

(** ** Invariants *)

(** Every live order is the one [self.order] refers to; a live SELL is sized
    to the position, a live BUY has a size that is not negative. *)
Definition tracked (w : World) : Prop :=
  forall id o, book w !! id = Some o -> live o = true ->
    order (strategy w) = Some id /\
    match side o with
    | BUY => 0 <= size o
    | SELL => size o = position w
    end.

Definition replay_inv (w : World) : Prop := tracked w /\ 0 <= position w.

(** After the prices [h], the buffer of a moving average of period [p]
    holds the last [p] of them and the running sum is their sum. *)
Definition sma_inv (p : nat) (h : list Q) (s : Sma) : Prop :=
  window s = drop (length h - p) h /\ (running s == Qsum (window s))%Q.

(** ** Sequences of callbacks *)

(** The two callbacks as the framework calls them: [next] on a bar, after
    the indicators took their value, and [notify_order] with an order. *)
Inductive Callback :=
  | CallNext (c : Z)
  | CallNotify (o : Order).

Definition call (cb : Callback) (w : World) : World :=
  match cb with
  | CallNext c => on_bar c w
  | CallNotify o => exec (notify_order o) w
  end.

Fixpoint calls (cbs : list Callback) (w : World) : World :=
  match cbs with
  | [] => w
  | cb :: rest => calls rest (call cb w)
  end.

(** A notification after which [notify_order] reaches [self.order = None]
    (line 66): any status but Submitted and Accepted. *)
Definition releasing (cb : Callback) : bool :=
  match cb with
  | CallNext _ => false
  | CallNotify o => negb (outstanding o)
  end.

Definition releases (cbs : list Callback) : nat :=
  length (filter (fun cb => releasing cb = true) cbs).

(** 1 when [self.order] is [None], 0 when it holds an order. *)
Definition free (w : World) : nat :=
  match order (strategy w) with
  | None => 1
  | Some _ => 0
  end.

(** ** What a part of the report prints *)

(** [m] ends with [r] and appends the lines [new], whatever was printed
    before. *)
Definition writes {A} (m : Rep A) (r : Exn + A) (new : list Line) : Prop :=
  forall out, m out = (r, out ++ new).

Definition writer {A} (m : Rep A) : Prop := exists r new, writes m r new.

(** ** The main block around the report (lines 123, 137-141, 183) *)

Definition start_portfolio_value : Q := 100000%Q.

Definition plot_line : Line :=
  [Text "Plotting results... close the plot window to exit."].

(** The three lines about the portfolio; [end_portfolio_value] is
    [cerebro.broker.getvalue()] after the run. *)
Definition portfolio_lines (end_portfolio_value : Q) : list Line :=
  [ [Text "Starting Portfolio Value: "; Fixed2 start_portfolio_value];
    [Text "Ending Portfolio Value: "; Fixed2 end_portfolio_value];
    [Text "Total Profit/Loss: ";
     Fixed2 (end_portfolio_value - start_portfolio_value)%Q] ].

(** What the main block prints from line 137 to line 183: the portfolio
    lines, the report, and the line that announces the plot. *)
Definition main_report (end_portfolio_value : Q) (a : Analysis) : Rep unit :=
  print [Text "Starting Portfolio Value: "; Fixed2 start_portfolio_value];;
  print [Text "Ending Portfolio Value: "; Fixed2 end_portfolio_value];;
  print [Text "Total Profit/Loss: ";
         Fixed2 (end_portfolio_value - start_portfolio_value)%Q];;
  report a;;
  print [];;
  print plot_line.

(** ** The two branches of the trade statistics (lines 167-179) *)

(** Lines 168-177: the statistics after their title. *)
Definition trade_statistics_body (trade_analysis : PyVal) : Rep unit :=
  closed ← attr2 trade_analysis "total" "closed";
  print [Text "Total Trades: "; Str closed];;
  won ← attr2 trade_analysis "won" "total";
  print [Text "Wins: "; Str won];;
  lost ← attr2 trade_analysis "lost" "total";
  print [Text "Losses: "; Str lost];;
  won ← attr2 trade_analysis "won" "total";
  closed ← attr2 trade_analysis "total" "closed";
  r ← py_truediv won closed;
  r ← py_mul r (PyInt 100);
  s ← format_2f r;
  print [win_rate_label; s; Text "%"];;
  won ← attr2 trade_analysis "won" "total";
  c ← py_gt won (PyInt 0);
  (if (c : bool) then
     w ← getattr trade_analysis "won";
     a ← attr2 w "pnl" "average";
     s ← format_2f a;
     print [Text "Average Win: "; s]
   else mret tt);;
  lost ← attr2 trade_analysis "lost" "total";
  c ← py_gt lost (PyInt 0);
  (if (c : bool) then
     l ← getattr trade_analysis "lost";
     a ← attr2 l "pnl" "average";
     s ← format_2f a;
     print [Text "Average Loss: "; s]
   else mret tt);;
  lt ← attr2 trade_analysis "long" "total";
  lw ← attr2 trade_analysis "long" "won";
  ll ← attr2 trade_analysis "long" "lost";
  print [Text "Longs: "; Str lt; Text " (Won: "; Str lw;
         Text ", Lost: "; Str ll; Text ")"];;
  st ← attr2 trade_analysis "short" "total";
  sw ← attr2 trade_analysis "short" "won";
  sl ← attr2 trade_analysis "short" "lost";
  print [Text "Shorts: "; Str st; Text " (Won: "; Str sw;
         Text ", Lost: "; Str sl; Text ")"].

Definition statistics_title : Line := [Text "--- Trade Statistics ---"].

(** Lines 167-177. *)
Definition trade_statistics (trade_analysis : PyVal) : Rep unit :=
  print [];;
  print statistics_title;;
  trade_statistics_body trade_analysis.

(** Lines 178-179. *)
Definition no_trades (trade_analysis : PyVal) : Rep unit :=
  print [];;
  print no_trades_line.

(** ** Checks on concrete runs *)

Example run_buy_then_close :
  replay [Bar 1; Advance 0 Submitted; Bar 1; Advance 0 Accepted;
          Advance 0 Completed; Bar 0; Bar (-1)] (init default_params)
  = Some {| strategy := {| params := default_params; order := Some 1%nat |};
            book := [mkOrder BUY 10 Completed; mkOrder SELL 10 Created];
            position := 10; crossover := -1 |}.
Proof. reflexivity. Qed.

Example run_margin_releases :
  replay [Bar 1; Advance 0 Submitted; Advance 0 Margin; Bar 1]
         (init default_params)
  = Some {| strategy := {| params := default_params; order := Some 1%nat |};
            book := [mkOrder BUY 10 Margin; mkOrder BUY 10 Created];
            position := 0; crossover := 1 |}.
Proof. reflexivity. Qed.

Example run_no_skipping :
  replay [Bar 1; Advance 0 Completed] (init default_params) = None.
Proof. reflexivity. Qed.

(** ** The decision step *)

Lemma next_gated (w : World) (r : nat) :
  order (strategy w) = Some r -> next w = (tt, w).
Proof.
  intros H. unfold next, mbind, St_bind, gets. rewrite H. reflexivity.
Qed.

Lemma next_buy (w : World) :
  order (strategy w) = None -> position w = 0 -> 0 < crossover w ->
  exec next w =
    {| strategy := {| params := params (strategy w);
                      order := Some (length (book w)) |};
       book := book w ++ [mkOrder BUY 10 Created];
       position := position w; crossover := crossover w |}.
Proof.
  intros Ho Hp Hc. unfold exec, next, mbind, St_bind, gets. rewrite Ho.
  rewrite (bool_decide_eq_true_2 _ Hp), (bool_decide_eq_true_2 _ Hc).
  reflexivity.
Qed.

Lemma next_close (w : World) :
  order (strategy w) = None -> position w <> 0 -> crossover w < 0 ->
  exec next w =
    {| strategy := {| params := params (strategy w);
                      order := Some (length (book w)) |};
       book := book w ++ [mkOrder SELL (position w) Created];
       position := position w; crossover := crossover w |}.
Proof.
  intros Ho Hp Hc. unfold exec, next, mbind, St_bind, gets. rewrite Ho.
  rewrite (bool_decide_eq_false_2 _ Hp), (bool_decide_eq_true_2 _ Hc).
  reflexivity.
Qed.

Lemma next_hold (w : World) :
  ~ (position w = 0 /\ 0 < crossover w) ->
  ~ (position w <> 0 /\ crossover w < 0) ->
  exec next w = w.
Proof.
  intros H1 H2. unfold exec, next, mbind, St_bind, gets.
  destruct (order (strategy w)); [reflexivity|].
  repeat case_bool_decide; try reflexivity; tauto.
Qed.

Lemma emitted_app (w w' : World) (l : list Order) :
  book w' = book w ++ l -> emitted w w' = l.
Proof. intros H. unfold emitted. rewrite H. apply drop_app_length. Qed.

Lemma emitted_same (w w' : World) : book w' = book w -> emitted w w' = [].
Proof. intros H. unfold emitted. rewrite H. apply drop_all. Qed.

(** ** The notification callback *)

Lemma notify_order_keeps (w : World) (o : Order) :
  outstanding o = true -> exec (notify_order o) w = w.
Proof.
  unfold outstanding, exec, notify_order. intros H.
  destruct (status o); try discriminate; reflexivity.
Qed.

Lemma notify_order_resets (w : World) (o : Order) :
  outstanding o = false ->
  exec (notify_order o) w =
    {| strategy := {| params := params (strategy w); order := None |};
       book := book w; position := position w; crossover := crossover w |}.
Proof.
  unfold outstanding, exec, notify_order. intros H.
  destruct (status o) eqn:E; try discriminate; destruct (side o); reflexivity.
Qed.

Lemma terminal_not_outstanding (o : Order) :
  terminal (status o) = true -> outstanding o = false.
Proof. unfold outstanding. destruct (status o); simpl; congruence. Qed.

Lemma outstanding_live (o : Order) : outstanding o = true -> live o = true.
Proof. unfold outstanding, live. destruct (status o); simpl; congruence. Qed.

Lemma lifecycle_from_live (o : Order) (s' : Status) :
  lifecycle (status o) s' = true -> live o = true.
Proof. unfold live. destruct (status o), s'; simpl; congruence. Qed.

Lemma lifecycle_cases (s s' : Status) :
  lifecycle s s' = true ->
  (s' = Submitted \/ s' = Accepted) \/ terminal s' = true.
Proof. destruct s, s'; simpl; intros; try discriminate; auto. Qed.

(** ** The invariant of the replay *)

Lemma replay_inv_init (p : Params) : replay_inv (init p).
Proof.
  split; [|simpl; lia]. intros id o H. simpl in H.
  rewrite lookup_nil in H. discriminate.
Qed.

Lemma tracked_none_no_live (w : World) :
  tracked w -> order (strategy w) = None ->
  forall id o, book w !! id = Some o -> live o = false.
Proof.
  intros Ht Hn id o Hl. destruct (live o) eqn:E; [|reflexivity].
  destruct (Ht id o Hl E) as [H _]. congruence.
Qed.

Lemma lookup_snoc_cases (l : list Order) (x o : Order) (id : nat) :
  (l ++ [x]) !! id = Some o ->
  l !! id = Some o \/ (id = length l /\ o = x).
Proof.
  intros H. destruct (decide (id < length l)%nat) as [Hlt|Hge].
  - left. rewrite lookup_app_l in H; assumption.
  - right. rewrite lookup_app_r in H by lia.
    destruct (id - length l)%nat eqn:E; simpl in H.
    + split; [lia | congruence].
    + rewrite lookup_nil in H. discriminate.
Qed.

Lemma replay_inv_on_bar (c : Z) (w : World) :
  replay_inv w -> replay_inv (on_bar c w).
Proof.
  intros [Ht Hp]. unfold on_bar.
  set (w0 := with_crossover c w).
  assert (Ht0 : tracked w0) by exact Ht.
  destruct (order (strategy w0)) as [r|] eqn:Ho.
  { unfold exec. rewrite (next_gated w0 r Ho). split; assumption. }
  destruct (decide (position w0 = 0)) as [Hz|Hnz].
  - destruct (decide (0 < crossover w0)) as [Hc|Hc].
    + rewrite (next_buy w0 Ho Hz Hc). split; [|exact Hp].
      intros id o Hl Hlive. simpl in *.
      apply lookup_snoc_cases in Hl as [Hl|[-> ->]].
      * rewrite (tracked_none_no_live w0 Ht0 Ho id o Hl) in Hlive. discriminate.
      * split; [reflexivity | simpl; lia].
    + rewrite next_hold by tauto. split; assumption.
  - destruct (decide (crossover w0 < 0)) as [Hc|Hc].
    + rewrite (next_close w0 Ho Hnz Hc). split; [|exact Hp].
      intros id o Hl Hlive. simpl in *.
      apply lookup_snoc_cases in Hl as [Hl|[-> ->]].
      * rewrite (tracked_none_no_live w0 Ht0 Ho id o Hl) in Hlive. discriminate.
      * split; reflexivity.
    + rewrite next_hold by tauto. split; assumption.
Qed.

Lemma replay_inv_advance (id : nat) (s' : Status) (w w' : World) :
  replay_inv w -> advance id s' w = Some w' -> replay_inv w'.
Proof.
  intros [Ht Hp] H. unfold advance in H.
  destruct (book w !! id) as [o|] eqn:Hl; simpl in H; [|discriminate].
  destruct (lifecycle (status o) s') eqn:Hs; [|discriminate].
  injection H as <-.
  pose proof (lifecycle_from_live o s' Hs) as Hlive.
  destruct (Ht id o Hl Hlive) as [Hid Hsz].
  assert (Hlt : (id < length (book w))%nat) by (eapply lookup_lt_Some; eassumption).
  destruct (lifecycle_cases _ _ Hs) as [Hout|Hterm].
  - rewrite notify_order_keeps
      by (unfold outstanding; simpl; destruct Hout as [->| ->]; reflexivity).
    assert (Hfill : fill o s' (position w) = position w)
      by (destruct Hout as [->| ->]; reflexivity).
    split; simpl; [|lia].
    intros id2 o2 Hl2 Hlive2. simpl in *. rewrite Hfill.
    destruct (decide (id2 = id)) as [->|Hne].
    + rewrite list_lookup_insert_eq in Hl2 by assumption.
      injection Hl2 as <-. split; [assumption|exact Hsz].
    + rewrite list_lookup_insert_ne in Hl2 by congruence.
      destruct (Ht id2 o2 Hl2 Hlive2) as [Hid2 _]. congruence.
  - rewrite notify_order_resets
      by (apply terminal_not_outstanding; exact Hterm).
    split; simpl.
    + intros id2 o2 Hl2 Hlive2. simpl in *.
      destruct (decide (id2 = id)) as [->|Hne].
      * rewrite list_lookup_insert_eq in Hl2 by assumption.
        injection Hl2 as <-. unfold live in Hlive2. simpl in Hlive2.
        rewrite Hterm in Hlive2. discriminate.
      * rewrite list_lookup_insert_ne in Hl2 by congruence.
        destruct (Ht id2 o2 Hl2 Hlive2) as [Hid2 _]. congruence.
    + unfold fill. destruct s'; try lia; destruct (side o); lia.
Qed.

Lemma replay_inv_step (e : Event) (w w' : World) :
  replay_inv w -> step e w = Some w' -> replay_inv w'.
Proof.
  intros Hi H. destruct e as [c|id s']; simpl in H.
  - injection H as <-. apply replay_inv_on_bar; assumption.
  - eapply replay_inv_advance; eassumption.
Qed.

Lemma replay_inv_replay (evs : list Event) (w w' : World) :
  replay_inv w -> replay evs w = Some w' -> replay_inv w'.
Proof.
  revert w. induction evs as [|e evs IH]; intros w Hi H; simpl in H.
  - injection H as <-. assumption.
  - destruct (step e w) as [w1|] eqn:Hs; simpl in H; [|discriminate].
    eapply IH; [|eassumption]. eapply replay_inv_step; eassumption.
Qed.

(** A list in which all elements with a property sit at one index has at
    most one element with it. *)
Lemma filter_at_most_one {A} (P : A -> Prop) `{forall x, Decision (P x)}
    (l : list A) :
  (forall i j x y, l !! i = Some x -> l !! j = Some y -> P x -> P y -> i = j) ->
  (length (filter P l) <= 1)%nat.
Proof.
  induction l as [|a l IH]; intros Hu; [simpl; lia|].
  rewrite filter_cons. destruct (decide (P a)) as [Ha|Ha].
  - assert (Hnil : filter P l = []).
    { apply length_zero_iff_nil.
      destruct (filter P l) as [|y l'] eqn:E; [reflexivity|].
      assert (Hy : y ∈ filter P l) by (rewrite E; left).
      apply list_elem_of_filter in Hy as [Py Hin].
      apply list_elem_of_lookup in Hin as [j Hj].
      specialize (Hu 0%nat (S j) a y eq_refl Hj Ha Py). discriminate. }
    rewrite Hnil. simpl. lia.
  - apply IH. intros i j x y Hi Hj Px Py.
    specialize (Hu (S i) (S j) x y Hi Hj Px Py). lia.
Qed.

(** ** Claims about the strategy *)

(** C1.  At every point of a replay, from any configuration and for any
    sequence of bars and broker notifications, at most one order is
    SUBMITTED or ACCEPTED, that order is the one [self.order] holds, and
    while [self.order] holds an order a new bar leaves everything but the
    indicator value as it was and emits no order. *)
Theorem at_most_one_outstanding_order
    (p : Params) (evs : list Event) (w : World) :
  replay evs (init p) = Some w ->
  (length (outstanding_orders w) <= 1)%nat /\
  (forall id o, book w !! id = Some o -> outstanding o = true ->
     order (strategy w) = Some id) /\
  (forall r c, order (strategy w) = Some r ->
     on_bar c w = with_crossover c w /\ emitted w (on_bar c w) = []).
Proof.
  intros H.
  destruct (replay_inv_replay evs (init p) w (replay_inv_init p) H) as [Ht _].
  assert (Hone : forall id o, book w !! id = Some o -> outstanding o = true ->
                   order (strategy w) = Some id).
  { intros id o Hl Ho. apply (Ht id o Hl). apply outstanding_live. exact Ho. }
  split; [|split].
  - unfold outstanding_orders. apply filter_at_most_one.
    intros i j x y Hi Hj Px Py.
    pose proof (Hone i x Hi Px). pose proof (Hone j y Hj Py). congruence.
  - exact Hone.
  - intros r c Hr. unfold on_bar, exec.
    rewrite (next_gated (with_crossover c w) r Hr). simpl.
    split; [reflexivity|]. apply emitted_same. reflexivity.
Qed.

Lemma at_most_one_outstanding_order_witness :
  let w := {| strategy := {| params := default_params; order := Some 0%nat |};
              book := [mkOrder BUY 10 Accepted];
              position := 0; crossover := 1 |} in
  replay [Bar 1; Advance 0 Submitted; Bar 1; Advance 0 Accepted]
         (init default_params) = Some w /\
  (length (outstanding_orders w) <= 1)%nat /\
  (forall id o, book w !! id = Some o -> outstanding o = true ->
     order (strategy w) = Some id) /\
  (forall r c, order (strategy w) = Some r ->
     on_bar c w = with_crossover c w /\ emitted w (on_bar c w) = []).
Proof.
  split; [reflexivity|].
  apply (at_most_one_outstanding_order default_params
           [Bar 1; Advance 0 Submitted; Bar 1; Advance 0 Accepted]).
  reflexivity.
Defined.

(** C2.  On a bar with no pending order: flat and a crossover above zero
    emit exactly one BUY (of 10 units), which [self.order] then holds; a
    nonzero position and a crossover below zero emit exactly one SELL whose
    size is the whole position; in every other case nothing is emitted and
    nothing changes. *)
Theorem next_decision (w : World) :
  order (strategy w) = None ->
  (position w = 0 -> 0 < crossover w ->
     emitted w (exec next w) = [mkOrder BUY 10 Created] /\
     order (strategy (exec next w)) = Some (length (book w))) /\
  (position w <> 0 -> crossover w < 0 ->
     emitted w (exec next w) = [mkOrder SELL (position w) Created] /\
     order (strategy (exec next w)) = Some (length (book w))) /\
  (~ (position w = 0 /\ 0 < crossover w) ->
   ~ (position w <> 0 /\ crossover w < 0) ->
     emitted w (exec next w) = [] /\ exec next w = w).
Proof.
  intros Ho. split; [|split].
  - intros Hp Hc. rewrite (next_buy w Ho Hp Hc). split; [|reflexivity].
    apply emitted_app. reflexivity.
  - intros Hp Hc. rewrite (next_close w Ho Hp Hc). split; [|reflexivity].
    apply emitted_app. reflexivity.
  - intros H1 H2. rewrite (next_hold w H1 H2). split; [|reflexivity].
    apply emitted_same. reflexivity.
Qed.

Lemma next_decision_witness :
  let w := {| strategy := {| params := default_params; order := None |};
              book := [mkOrder BUY 10 Completed];
              position := 10; crossover := -1 |} in
  order (strategy w) = None /\
  emitted w (exec next w) = [mkOrder SELL 10 Created] /\
  order (strategy (exec next w)) = Some 1%nat.
Proof.
  split; [reflexivity|].
  apply (next_decision
           {| strategy := {| params := default_params; order := None |};
              book := [mkOrder BUY 10 Completed];
              position := 10; crossover := -1 |}).
  - reflexivity.
  - simpl. lia.
  - simpl. lia.
Defined.

(** C6.  At every point of a replay the position size is not negative. *)
Theorem position_never_negative
    (p : Params) (evs : list Event) (w : World) :
  replay evs (init p) = Some w -> 0 <= position w.
Proof.
  intros H.
  exact (proj2 (replay_inv_replay evs (init p) w (replay_inv_init p) H)).
Qed.

Lemma position_never_negative_witness :
  let w := {| strategy := {| params := default_params; order := None |};
              book := [mkOrder BUY 10 Completed];
              position := 10; crossover := 1 |} in
  replay [Bar 1; Advance 0 Submitted; Advance 0 Accepted;
          Advance 0 Completed] (init default_params) = Some w /\
  0 <= position w.
Proof.
  split; [reflexivity|].
  apply (position_never_negative default_params
           [Bar 1; Advance 0 Submitted; Advance 0 Accepted;
            Advance 0 Completed]).
  reflexivity.
Defined.

(** C10.  A notification with a terminal status (Completed, Canceled,
    Margin, Rejected) resets [self.order] to [None] and touches nothing
    else, so on the next bar the decision step is not gated: flat with a
    crossover above zero it emits a BUY, in a position with a crossover
    below zero it emits the closing SELL. *)
Theorem terminal_notification_releases (w : World) (o : Order) :
  terminal (status o) = true ->
  order (strategy (exec (notify_order o) w)) = None /\
  book (exec (notify_order o) w) = book w /\
  position (exec (notify_order o) w) = position w /\
  (forall c, position w = 0 -> 0 < c ->
     emitted w (on_bar c (exec (notify_order o) w))
       = [mkOrder BUY 10 Created]) /\
  (forall c, position w <> 0 -> c < 0 ->
     emitted w (on_bar c (exec (notify_order o) w))
       = [mkOrder SELL (position w) Created]).
Proof.
  intros Ht.
  rewrite (notify_order_resets w o (terminal_not_outstanding o Ht)).
  repeat split.
  - intros c Hp Hc. unfold on_bar. rewrite next_buy by (simpl; trivial).
    apply emitted_app. reflexivity.
  - intros c Hp Hc. unfold on_bar. rewrite next_close by (simpl; trivial).
    apply emitted_app. reflexivity.
Qed.

Lemma terminal_notification_releases_witness :
  let w := {| strategy := {| params := default_params; order := Some 0%nat |};
              book := [mkOrder BUY 10 Margin];
              position := 0; crossover := 0 |} in
  let o := mkOrder BUY 10 Margin in
  terminal (status o) = true /\
  order (strategy (exec (notify_order o) w)) = None /\
  emitted w (on_bar 1 (exec (notify_order o) w)) = [mkOrder BUY 10 Created].
Proof.
  split; [reflexivity|].
  pose proof (terminal_notification_releases
    {| strategy := {| params := default_params; order := Some 0%nat |};
       book := [mkOrder BUY 10 Margin]; position := 0; crossover := 0 |}
    (mkOrder BUY 10 Margin) eq_refl) as (H1 & _ & _ & H4 & _).
  split; [exact H1|]. apply H4; [reflexivity | lia].
Defined.

(** C7, as stated: some configuration makes the BUY emitted on a flat,
    bullish bar have size 20.  None does: [params] has no position size and
    [next] passes the literal 10. *)
Lemma buy_size_not_configurable :
  ~ exists p : Params,
      emitted (with_crossover 1 (init p)) (on_bar 1 (init p))
        = [mkOrder BUY 20 Created].
Proof.
  intros [p H]. unfold on_bar in H.
  rewrite next_buy in H by (simpl; trivial; lia).
  unfold emitted in H. simpl in H. discriminate.
Qed.

(** C7, amended.  Whatever the configuration and the state, every BUY the
    decision step emits has size 10. *)
Theorem buy_size_is_ten (w : World) (o : Order) :
  o ∈ emitted w (exec next w) -> side o = BUY -> size o = 10.
Proof.
  intros Hin Hside.
  destruct (order (strategy w)) as [r|] eqn:Ho.
  { unfold exec in Hin. rewrite (next_gated w r Ho) in Hin. simpl in Hin.
    rewrite emitted_same in Hin by reflexivity. inversion Hin. }
  destruct (decide (position w = 0)) as [Hz|Hnz].
  - destruct (decide (0 < crossover w)) as [Hc|Hc].
    + rewrite (next_buy w Ho Hz Hc) in Hin.
      rewrite (emitted_app w _ [mkOrder BUY 10 Created]) in Hin by reflexivity.
      apply list_elem_of_singleton in Hin. subst o. reflexivity.
    + rewrite next_hold in Hin by tauto.
      rewrite emitted_same in Hin by reflexivity. inversion Hin.
  - destruct (decide (crossover w < 0)) as [Hc|Hc].
    + rewrite (next_close w Ho Hnz Hc) in Hin.
      rewrite (emitted_app w _ [mkOrder SELL (position w) Created]) in Hin
        by reflexivity.
      apply list_elem_of_singleton in Hin. subst o. discriminate.
    + rewrite next_hold in Hin by tauto.
      rewrite emitted_same in Hin by reflexivity. inversion Hin.
Qed.

Lemma buy_size_is_ten_witness :
  let w := with_crossover 1 (init (mkParams 5 20)) in
  let o := mkOrder BUY 10 Created in
  o ∈ emitted w (exec next w) /\ side o = BUY /\ size o = 10.
Proof.
  assert (Hin : mkOrder BUY 10 Created
                  ∈ emitted (with_crossover 1 (init (mkParams 5 20)))
                      (exec next (with_crossover 1 (init (mkParams 5 20)))))
    by (vm_compute; left).
  split; [exact Hin|]. split; [reflexivity|].
  exact (buy_size_is_ten _ _ Hin eq_refl).
Defined.

(** ** The moving average *)

Section MovingAverage.

Variable p : nat.
Hypothesis p_pos : (1 <= p)%nat.

Lemma Qsum_snoc (l : list Q) (x : Q) : (Qsum (l ++ [x]) == Qsum l + x)%Q.
Proof using p_pos.
  induction l as [|a l IH]; simpl.
  - ring.
  - rewrite IH. ring.
Qed.

Lemma sma_inv_empty : sma_inv p [] sma_empty.
Proof using p_pos. split; simpl; [reflexivity | apply Qeq_refl]. Qed.

Lemma sma_inv_push (h : list Q) (s : Sma) (x : Q) :
  sma_inv p h s -> sma_inv p (h ++ [x]) (sma_push p s x).
Proof using p_pos.
  destruct s as [win run]. intros [Hw Hr]. simpl in Hw, Hr. subst win.
  unfold sma_push. simpl window. simpl running. rewrite length_drop.
  destruct (Nat.ltb_spec (length h - (length h - p)) p) as [Hlt|Hge].
  - assert (Hz : (length h - p = 0)%nat) by lia.
    rewrite Hz, drop_0 in Hr |- *.
    split; simpl window; simpl running.
    + rewrite length_app. simpl length.
      replace (length h + 1 - p)%nat with 0%nat by lia.
      rewrite drop_0. reflexivity.
    + rewrite Qsum_snoc, Hr. reflexivity.
  - assert (Hn : (length h - p < length h)%nat) by lia.
    destruct (lookup_lt_is_Some_2 h _ Hn) as [y Hy].
    rewrite (drop_S h y _ Hy) in Hr |- *.
    split; simpl window; simpl running.
    + rewrite length_app. simpl length.
      replace (length h + 1 - p)%nat with (S (length h - p)) by lia.
      rewrite drop_app_le by lia. reflexivity.
    + rewrite Qsum_snoc, Hr. simpl. ring.
Qed.

Lemma sma_inv_undefined (h : list Q) (s : Sma) :
  sma_inv p h s -> (length h < p)%nat -> sma_value p s = None.
Proof using p_pos.
  intros [Hw _] Hlt. unfold sma_value. rewrite Hw, length_drop.
  destruct (Nat.eqb_spec (length h - (length h - p)) p); [lia | reflexivity].
Qed.

Lemma sma_inv_mean (h : list Q) (s : Sma) :
  sma_inv p h s -> (p <= length h)%nat ->
  exists v, sma_value p s = Some v /\
            (v == mean (drop (length h - p) h))%Q.
Proof using p_pos.
  intros [Hw Hr] Hle. unfold sma_value, mean.
  assert (Hlen : length (drop (length h - p) h) = p)
    by (rewrite length_drop; lia).
  rewrite Hw, Hlen, Nat.eqb_refl. eexists. split; [reflexivity|].
  rewrite Hr, Hw. reflexivity.
Qed.

(** Entry [i] of the line is the value of a state that has seen the
    history and the first [i + 1] of the new prices. *)
Lemma sma_run_lookup (xs : list Q) :
  forall (h : list Q) (s : Sma) (i : nat),
    sma_inv p h s -> (i < length xs)%nat ->
    exists s', sma_inv p (h ++ take (S i) xs) s' /\
               sma_run p s xs !! i = Some (sma_value p s').
Proof using p_pos.
  induction xs as [|x xs IH]; intros h s i Hi Hlt; simpl in Hlt; [lia|].
  pose proof (sma_inv_push h s x Hi) as Hpush.
  destruct i as [|i]; simpl.
  - exists (sma_push p s x). rewrite take_0. split; [exact Hpush | reflexivity].
  - destruct (IH (h ++ [x]) (sma_push p s x) i Hpush ltac:(lia))
      as (s' & Hs' & Hl).
    exists s'. split; [|exact Hl].
    rewrite <- app_assoc in Hs'. exact Hs'.
Qed.

End MovingAverage.

(** The line is aligned with the bars. *)
Lemma sma_run_length (p : nat) (prices : list Q) :
  forall s, length (sma_run p s prices) = length prices.
Proof.
  induction prices as [|x xs IH]; intros s; simpl; [reflexivity|].
  rewrite IH. reflexivity.
Qed.

(** C4.  For a period [p >= 1] and any prices, the moving average has no
    value at the bars before index [p - 1], and at index [(p - 1) + k] its
    value is the arithmetic mean of the [p] prices from index [k] on. *)
Theorem sma_is_window_mean (p : nat) (prices : list Q) :
  (1 <= p)%nat ->
  (forall i, (i < p - 1)%nat -> (i < length prices)%nat ->
     SimpleMovingAverage p prices !! i = Some None) /\
  (forall k, (k + p <= length prices)%nat ->
     exists v, SimpleMovingAverage p prices !! (p - 1 + k)%nat = Some (Some v) /\
               (v == mean (take p (drop k prices)))%Q).
Proof.
  intros Hp. split.
  - intros i Hi Hlt.
    destruct (sma_run_lookup p Hp prices [] sma_empty i (sma_inv_empty p Hp) Hlt)
      as (s' & Hs' & Hl).
    unfold SimpleMovingAverage. rewrite Hl. f_equal.
    apply (sma_inv_undefined p Hp _ s' Hs'). simpl.
    rewrite length_take. lia.
  - intros k Hk.
    assert (Hlt : (p - 1 + k < length prices)%nat) by lia.
    destruct (sma_run_lookup p Hp prices [] sma_empty _ (sma_inv_empty p Hp) Hlt)
      as (s' & Hs' & Hl).
    simpl in Hs'. replace (S (p - 1 + k)) with (k + p)%nat in Hs' by lia.
    assert (Hlen : length (take (k + p) prices) = (k + p)%nat)
      by (rewrite length_take; lia).
    destruct (sma_inv_mean p Hp _ s' Hs' ltac:(lia)) as (v & Hv & Hm).
    exists v. unfold SimpleMovingAverage. rewrite Hl, Hv.
    split; [reflexivity|].
    rewrite Hm, Hlen, take_drop_commute.
    replace (k + p - p)%nat with k by lia. reflexivity.
Qed.

Lemma sma_is_window_mean_witness :
  (1 <= 3)%nat /\
  SimpleMovingAverage 3 [1; 2; 3; 4; 8]%Q
    = [None; None; Some (6 / 3); Some (9 / 3); Some (15 / 3)]%Q /\
  (exists v, SimpleMovingAverage 3 [1; 2; 3; 4; 8]%Q !! 4%nat = Some (Some v) /\
             (v == mean [3; 4; 8])%Q).
Proof.
  split; [lia|]. split; [vm_compute; reflexivity|].
  apply (proj2 (sma_is_window_mean 3 [1; 2; 3; 4; 8]%Q ltac:(lia)) 2%nat).
  simpl. lia.
Defined.

(** ** The report *)

Lemma getitem_pure (d : PyVal) (k : string) (out : list Line) :
  getitem d k out = (eval (getitem d k), out).
Proof.
  unfold eval, getitem.
  destruct d; try reflexivity. destruct (assoc k items); reflexivity.
Qed.

Lemma attr2_pure (v : PyVal) (a b : string) (out : list Line) :
  attr2 v a b out = (eval (attr2 v a b), out).
Proof.
  unfold eval, attr2, getattr, mbind, Rep_bind.
  rewrite (getitem_pure v a out), (getitem_pure v a []).
  destruct (eval (getitem v a)) as [e|x]; [reflexivity|].
  rewrite (getitem_pure x b out), (getitem_pure x b []). reflexivity.
Qed.

Lemma py_gt_pure (a b : PyVal) (out : list Line) :
  py_gt a b out = (eval (py_gt a b), out).
Proof.
  unfold eval, py_gt.
  destruct (number a), (number b); reflexivity.
Qed.

Lemma py_truediv_pure (a b : PyVal) (out : list Line) :
  py_truediv a b out = (eval (py_truediv a b), out).
Proof.
  unfold eval, py_truediv.
  destruct (number a), (number b); try reflexivity.
  destruct (Qeq_bool _ 0); reflexivity.
Qed.

Lemma py_mul_pure (a b : PyVal) (out : list Line) :
  py_mul a b out = (eval (py_mul a b), out).
Proof.
  unfold eval, py_mul.
  destruct a, b; simpl; reflexivity.
Qed.

Lemma format_2f_pure (v : PyVal) (out : list Line) :
  format_2f v out = (eval (format_2f v), out).
Proof. unfold eval, format_2f. destruct (number v); reflexivity. Qed.

(** Only the division raises [ZeroDivisionError]. *)
Lemma getitem_no_zde (d : PyVal) (k : string) :
  eval (getitem d k) <> inl ZeroDivisionError.
Proof.
  unfold eval, getitem. destruct d; try discriminate.
  destruct (assoc k items); discriminate.
Qed.

Lemma attr2_no_zde (v : PyVal) (a b : string) :
  eval (attr2 v a b) <> inl ZeroDivisionError.
Proof.
  unfold eval, attr2, getattr, mbind, Rep_bind.
  rewrite (getitem_pure v a []).
  destruct (eval (getitem v a)) as [e|x] eqn:E.
  - simpl. intros H. apply (getitem_no_zde v a). congruence.
  - apply getitem_no_zde.
Qed.

Lemma py_gt_no_zde (a b : PyVal) : eval (py_gt a b) <> inl ZeroDivisionError.
Proof. unfold eval, py_gt. destruct (number a), (number b); discriminate. Qed.

Lemma py_mul_no_zde (a b : PyVal) : eval (py_mul a b) <> inl ZeroDivisionError.
Proof. unfold eval, py_mul. destruct a, b; simpl; discriminate. Qed.

Lemma format_2f_no_zde (v : PyVal) : eval (format_2f v) <> inl ZeroDivisionError.
Proof. unfold eval, format_2f. destruct (number v); discriminate. Qed.

(** After the guard [closed > 0] the division by [closed] does not raise
    [ZeroDivisionError]. *)
Lemma py_truediv_guarded (a c : PyVal) :
  eval (py_gt c (PyInt 0)) = inr true ->
  eval (py_truediv a c) <> inl ZeroDivisionError.
Proof.
  unfold eval, py_gt, py_truediv. simpl number.
  destruct (number c) as [q|]; [|discriminate].
  destruct (number a) as [x|]; [|discriminate]. simpl.
  intros H. injection H as H. apply negb_true_iff in H.
  destruct (Qeq_bool q 0) eqn:E; [|discriminate].
  apply Qeq_bool_iff in E.
  assert (Hle : Qle_bool q (inject_Z 0) = true).
  { apply Qle_bool_iff. rewrite E. apply Qle_refl. }
  congruence.
Qed.

Ltac run_pure :=
  first [ rewrite attr2_pure | rewrite getitem_pure | rewrite py_gt_pure
        | rewrite py_truediv_pure | rewrite py_mul_pure
        | rewrite format_2f_pure ].

Ltac reuse_eval :=
  match goal with
  | H : eval ?m = _ |- context [eval ?m] => rewrite H
  end.

Ltac no_zde :=
  let HH := fresh in
  simpl; intros HH; injection HH as ->;
  match goal with
  | E : eval _ = inl ZeroDivisionError |- _ =>
      first [ exact (attr2_no_zde _ _ _ E) | exact (getitem_no_zde _ _ E)
            | exact (py_gt_no_zde _ _ E) | exact (py_mul_no_zde _ _ E)
            | exact (format_2f_no_zde _ E)
            | eapply py_truediv_guarded; eassumption ]
  end.

(** With a [closed] count that is a number and not above zero, the report
    prints the no-trades line and nothing else. *)
Lemma report_trades_zero_closed (ta c : PyVal) (out : list Line) :
  eval (attr2 ta "total" "closed") = inr c ->
  eval (py_gt c (PyInt 0)) = inr false ->
  report_trades ta out = (inr tt, out ++ [[]; no_trades_line]).
Proof.
  intros Hc Hg. unfold report_trades, mbind, Rep_bind.
  rewrite attr2_pure, Hc, py_gt_pure, Hg. unfold print.
  rewrite <- app_assoc. reflexivity.
Qed.

Ltac split_eval :=
  match goal with
  | |- context [match eval ?m with _ => _ end] =>
      let E := fresh "E" in destruct (eval m) as [?e|?v] eqn:E; [no_zde|]
  end.

Ltac split_if :=
  match goal with
  | |- context [if ?b then _ else _] => destruct b
  end.

(** No analysis makes the trade statistics divide by zero. *)
Lemma report_trades_never_divides_by_zero (ta : PyVal) (out : list Line) :
  fst (report_trades ta out) <> inl ZeroDivisionError.
Proof.
  unfold report_trades, mbind, Rep_bind, mret, Rep_ret, getattr, print.
  repeat first [ progress cbv beta iota | run_pure | reuse_eval
               | split_eval | split_if ];
    simpl; discriminate.
Qed.

(** The N/A line is printed when [get_analysis()] is [None] itself. *)
Lemma report_sharpe_none (out : list Line) :
  report_sharpe PyNone out = (inr tt, out ++ [na_line]).
Proof. reflexivity. Qed.

(** And for nothing else: any other value is read by key and formatted. *)
Lemma report_sharpe_na_only_none (v : PyVal) (out : list Line) :
  v <> PyNone ->
  snd (report_sharpe v out) = out \/
  exists q, snd (report_sharpe v out) = out ++ [[Text "Sharpe Ratio: "; Fixed2 q]].
Proof.
  intros Hv. unfold report_sharpe.
  destruct v as [|z|q|items]; try congruence; simpl;
    unfold mbind, Rep_bind, getitem; simpl; auto.
  destruct (assoc "sharperatio" items) as [x|]; simpl; auto.
  unfold format_2f. destruct (number x) as [q|]; simpl; eauto.
Qed.

Example report_sharpe_number :
  report_sharpe (PyDict [("sharperatio", PyFloat (3 # 2))]) []
  = (inr tt, [[Text "Sharpe Ratio: "; Fixed2 (3 # 2)]]).
Proof. reflexivity. Qed.

Example report_trades_zero_closed_line :
  report_trades trades_zero_closed [] = (inr tt, [[]; no_trades_line]).
Proof. reflexivity. Qed.

(** C9.  With an undefined Sharpe ratio the analyzer's result is a
    dictionary holding [None]; the test on line 149 passes, line 150 formats
    [None], and the report ends in a [TypeError] right after its header,
    without the N/A line. *)
Theorem sharpe_undefined_raises (d r t : PyVal) :
  report_sharpe sharpe_undefined [] = (inl TypeError, []) /\
  report (mkAnalysis sharpe_undefined d r t) []
    = (inl TypeError, [[]; [Text "--- Backtesting Results ---"]]).
Proof. split; reflexivity. Qed.

(** C8.  With no closed trade the analyzer's result has no [closed] entry;
    line 166 raises before the guard is evaluated and the no-trades line is
    not printed, whether no trade was opened or one is still open. *)
Theorem no_closed_trades_raises :
  report_trades trades_none [] = (inl KeyError, []) /\
  report_trades trades_one_open [] = (inl KeyError, []).
Proof. split; reflexivity. Qed.

(** ** Further properties of the callbacks *)

(** The three outcomes of [next]. *)
Lemma next_cases (w : World) :
  exec next w = w \/
  (order (strategy w) = None /\ position w = 0 /\ 0 < crossover w /\
   exec next w =
     {| strategy := {| params := params (strategy w);
                       order := Some (length (book w)) |};
        book := book w ++ [mkOrder BUY 10 Created];
        position := position w; crossover := crossover w |}) \/
  (order (strategy w) = None /\ position w <> 0 /\ crossover w < 0 /\
   exec next w =
     {| strategy := {| params := params (strategy w);
                       order := Some (length (book w)) |};
        book := book w ++ [mkOrder SELL (position w) Created];
        position := position w; crossover := crossover w |}).
Proof.
  destruct (order (strategy w)) as [r|] eqn:Ho.
  { left. unfold exec. rewrite (next_gated w r Ho). reflexivity. }
  destruct (decide (position w = 0)) as [Hz|Hnz].
  - destruct (decide (0 < crossover w)) as [Hc|Hc].
    + right; left. repeat split; try assumption. apply next_buy; assumption.
    + left. apply next_hold; tauto.
  - destruct (decide (crossover w < 0)) as [Hc|Hc].
    + right; right. repeat split; try assumption. apply next_close; assumption.
    + left. apply next_hold; tauto.
Qed.

(** X1.  Running [next] a second time on the same bar changes nothing: an
    order emitted by the first run is pending for the second. *)
Theorem next_idempotent (w : World) :
  exec next (exec next w) = exec next w.
Proof.
  destruct (next_cases w) as [H|[(_ & _ & _ & H)|(_ & _ & _ & H)]].
  - rewrite H. exact H.
  - rewrite H. unfold exec. erewrite next_gated by reflexivity. reflexivity.
  - rewrite H. unfold exec. erewrite next_gated by reflexivity. reflexivity.
Qed.


(** X3.  An order comes out of [next] only when no order is pending, and
    then a BUY only when flat with the crossover above zero, a SELL only in
    a position with the crossover below zero, sized to that position. *)
Theorem next_emits_only_when (w : World) (o : Order) :
  o ∈ emitted w (exec next w) ->
  order (strategy w) = None /\
  ((side o = BUY /\ size o = 10 /\ position w = 0 /\ 0 < crossover w) \/
   (side o = SELL /\ size o = position w /\ position w <> 0 /\
    crossover w < 0)).
Proof.
  intros Hin.
  destruct (next_cases w) as [H|[(Ho & Hp & Hc & H)|(Ho & Hp & Hc & H)]];
    rewrite H in Hin.
  - rewrite emitted_same in Hin by reflexivity. inversion Hin.
  - rewrite (emitted_app w _ [mkOrder BUY 10 Created]) in Hin by reflexivity.
    apply list_elem_of_singleton in Hin. subst o. split; [exact Ho|].
    left. repeat split; assumption.
  - rewrite (emitted_app w _ [mkOrder SELL (position w) Created]) in Hin
      by reflexivity.
    apply list_elem_of_singleton in Hin. subst o. split; [exact Ho|].
    right. repeat split; assumption.
Qed.

Lemma next_emits_only_when_witness :
  let w := {| strategy := {| params := default_params; order := None |};
              book := [mkOrder BUY 10 Completed];
              position := 10; crossover := -1 |} in
  let o := mkOrder SELL 10 Created in
  o ∈ emitted w (exec next w) /\
  order (strategy w) = None /\
  ((side o = BUY /\ size o = 10 /\ position w = 0 /\ 0 < crossover w) \/
   (side o = SELL /\ size o = position w /\ position w <> 0 /\
    crossover w < 0)).
Proof.
  assert (Hin : mkOrder SELL 10 Created
                  ∈ emitted
                      {| strategy := {| params := default_params; order := None |};
                         book := [mkOrder BUY 10 Completed];
                         position := 10; crossover := -1 |}
                      (exec next
                         {| strategy := {| params := default_params;
                                           order := None |};
                            book := [mkOrder BUY 10 Completed];
                            position := 10; crossover := -1 |}))
    by (vm_compute; left).
  split; [exact Hin|].
  exact (next_emits_only_when _ _ Hin).
Defined.

(** X4.  Either [next] emits nothing and leaves [self.order] as it was, or
    it emits one order and [self.order] then refers to exactly that order in
    the broker's book. *)
Theorem next_tracks_emitted (w : World) :
  (emitted w (exec next w) = [] /\
   order (strategy (exec next w)) = order (strategy w)) \/
  (exists r o, emitted w (exec next w) = [o] /\
               order (strategy w) = None /\
               order (strategy (exec next w)) = Some r /\
               book (exec next w) !! r = Some o).
Proof.
  destruct (next_cases w) as [H|[(Ho & _ & _ & H)|(Ho & _ & _ & H)]]; rewrite H.
  - left. split; [apply emitted_same|]; reflexivity.
  - right. exists (length (book w)), (mkOrder BUY 10 Created).
    split; [apply emitted_app; reflexivity|]. repeat split; try assumption.
    simpl. rewrite lookup_app_r by lia. rewrite Nat.sub_diag. reflexivity.
  - right. exists (length (book w)), (mkOrder SELL (position w) Created).
    split; [apply emitted_app; reflexivity|]. repeat split; try assumption.
    simpl. rewrite lookup_app_r by lia. rewrite Nat.sub_diag. reflexivity.
Qed.

(** X6.  [notify_order] changes nothing but [self.order], looks at nothing
    but the status of the order it is given, keeps [self.order] for
    Submitted and Accepted and resets it for every other status, also one
    that neither list of lines 54 and 62 names. *)
Theorem notify_order_effect (w : World) (o : Order) :
  book (exec (notify_order o) w) = book w /\
  position (exec (notify_order o) w) = position w /\
  crossover (exec (notify_order o) w) = crossover w /\
  params (strategy (exec (notify_order o) w)) = params (strategy w) /\
  order (strategy (exec (notify_order o) w))
    = (if bool_decide (status o = Submitted \/ status o = Accepted)
       then order (strategy w) else None).
Proof.
  destruct (outstanding o) eqn:Hout.
  - rewrite (notify_order_keeps w o Hout). repeat split.
    unfold outstanding in Hout.
    destruct (status o); try discriminate; reflexivity.
  - rewrite (notify_order_resets w o Hout). repeat split. simpl.
    unfold outstanding in Hout.
    destruct (status o); try discriminate; reflexivity.
Qed.

Lemma next_book_grows (w : World) :
  (length (book w) <= length (book (exec next w)))%nat /\
  (length (book (exec next w)) + free (exec next w)
   <= length (book w) + free w)%nat.
Proof.
  destruct (next_cases w) as [H|[(Ho & _ & _ & H)|(Ho & _ & _ & H)]];
    rewrite H; [lia| |]; unfold free; rewrite Ho; simpl;
    rewrite length_app; simpl; lia.
Qed.

Lemma call_book_grows (cb : Callback) (w : World) :
  (length (book w) <= length (book (call cb w)))%nat /\
  (length (book (call cb w)) + free (call cb w)
   <= length (book w) + free w + (if releasing cb then 1 else 0))%nat.
Proof.
  destruct cb as [c|o]; simpl.
  - pose proof (next_book_grows (with_crossover c w)) as H.
    unfold on_bar.
    change (book (with_crossover c w)) with (book w) in H.
    change (free (with_crossover c w)) with (free w) in H. lia.
  - destruct (outstanding o) eqn:Hout; simpl.
    + rewrite (notify_order_keeps w o Hout). lia.
    + rewrite (notify_order_resets w o Hout). unfold free. simpl.
      destruct (order (strategy w)); lia.
Qed.

Lemma calls_book_grows (cbs : list Callback) :
  forall w,
    (length (book w) <= length (book (calls cbs w)))%nat /\
    (length (book (calls cbs w)) + free (calls cbs w)
     <= length (book w) + free w + releases cbs)%nat.
Proof.
  induction cbs as [|cb cbs IH]; intros w; simpl.
  - unfold releases. simpl. lia.
  - destruct (call_book_grows cb w) as [H1 H2].
    destruct (IH (call cb w)) as [H3 H4].
    assert (Hr : releases (cb :: cbs)
                 = ((if releasing cb then 1 else 0) + releases cbs)%nat).
    { unfold releases. rewrite filter_cons.
      destruct (decide (releasing cb = true)) as [E|E].
      - rewrite E. reflexivity.
      - apply not_true_is_false in E. rewrite E. reflexivity. }
    rewrite Hr. lia.
Qed.

(** X5.  Over any sequence of calls of the two callbacks, the orders
    emitted are at most one more than the notifications that reset
    [self.order] (none more when an order was pending at the start): every
    new order needs a reset in between. *)
Theorem emissions_bounded_by_resets (cbs : list Callback) (w : World) :
  (length (emitted w (calls cbs w)) <= free w + releases cbs)%nat.
Proof.
  destruct (calls_book_grows cbs w) as [H1 H2].
  unfold emitted. rewrite length_drop. lia.
Qed.

Example emissions_bound_attained :
  length (emitted (init default_params)
            (calls [CallNext 1; CallNotify (mkOrder BUY 10 Margin); CallNext 1]
                   (init default_params)))
  = (free (init default_params)
     + releases [CallNext 1; CallNotify (mkOrder BUY 10 Margin); CallNext 1])%nat.
Proof. reflexivity. Qed.

(** ** Further properties of the report *)

Lemma writes_ret {A} (a : A) : writes (mret a) (inr a) [].
Proof. intros out. unfold mret, Rep_ret. rewrite app_nil_r. reflexivity. Qed.

Lemma writes_print (l : Line) : writes (print l) (inr tt) [l].
Proof. intros out. reflexivity. Qed.

Lemma writes_eval {A} (m : Rep A) :
  (forall out, m out = (eval m, out)) -> writes m (eval m) [].
Proof. intros H out. rewrite app_nil_r. apply H. Qed.

Lemma writes_bind_ok {A B} (m : Rep A) (f : A -> Rep B) a n1 r n2 :
  writes m (inr a) n1 -> writes (f a) r n2 -> writes (m ≫= f) r (n1 ++ n2).
Proof.
  intros Hm Hf out. unfold mbind, Rep_bind. rewrite Hm, Hf.
  rewrite app_assoc. reflexivity.
Qed.

Lemma writes_bind_err {A B} (m : Rep A) (f : A -> Rep B) e n1 :
  writes m (inl e) n1 -> writes (m ≫= f) (inl e) n1.
Proof. intros Hm out. unfold mbind, Rep_bind. rewrite Hm. reflexivity. Qed.

Lemma writes_unique {A} (m : Rep A) r1 n1 r2 n2 :
  writes m r1 n1 -> writes m r2 n2 -> r1 = r2 /\ n1 = n2.
Proof.
  intros H1 H2. pose proof (H1 []) as E1. rewrite (H2 []) in E1.
  simpl in E1. injection E1 as -> ->. split; reflexivity.
Qed.

Lemma writer_bind {A B} (m : Rep A) (f : A -> Rep B) :
  writer m -> (forall a, writer (f a)) -> writer (m ≫= f).
Proof.
  intros ([e|a] & n1 & Hm) Hf.
  - exists (inl e), n1. apply writes_bind_err. exact Hm.
  - destruct (Hf a) as (r & n2 & Ha).
    exists r, (n1 ++ n2). eapply writes_bind_ok; eassumption.
Qed.

Lemma writer_eval {A} (m : Rep A) :
  (forall out, m out = (eval m, out)) -> writer m.
Proof. intros H. exists (eval m), []. apply writes_eval. exact H. Qed.

Lemma writer_ret {A} (a : A) : writer (mret a : Rep A).
Proof. exists (inr a), []. apply writes_ret. Qed.

Lemma writer_print (l : Line) : writer (print l).
Proof. exists (inr tt), [l]. apply writes_print. Qed.

Ltac writer_step :=
  first
    [ apply writer_bind; [|intros ?]
    | apply writer_print
    | apply writer_ret
    | apply writer_eval; intros ?;
      first [ apply attr2_pure | apply getitem_pure | apply py_gt_pure
            | apply py_truediv_pure | apply py_mul_pure
            | apply format_2f_pure ]
    | match goal with
      | |- writer (if ?b then _ else _) => destruct b
      end ].

Lemma format_2pct_pure (v : PyVal) (out : list Line) :
  format_2pct v out = (eval (format_2pct v), out).
Proof. unfold eval, format_2pct. destruct (number v); reflexivity. Qed.

Lemma report_sharpe_writer (v : PyVal) : writer (report_sharpe v).
Proof. unfold report_sharpe. repeat writer_step. Qed.

Lemma report_drawdown_writer (v : PyVal) : writer (report_drawdown v).
Proof. unfold report_drawdown, getattr. repeat writer_step. Qed.

Lemma report_returns_writer (v : PyVal) : writer (report_returns v).
Proof.
  unfold report_returns.
  repeat first [ writer_step
               | apply writer_eval; intros ?; apply format_2pct_pure ].
Qed.

Lemma report_trades_writer (v : PyVal) : writer (report_trades v).
Proof. unfold report_trades, getattr. repeat writer_step. Qed.

(** A Sharpe section that raises has printed nothing. *)
Lemma report_sharpe_raise_silent (v : PyVal) (out : list Line) (e : Exn) :
  fst (report_sharpe v out) = inl e -> snd (report_sharpe v out) = out.
Proof.
  unfold report_sharpe.
  destruct v as [|z|q|items]; simpl; unfold mbind, Rep_bind, getitem; simpl;
    try discriminate; try reflexivity.
  destruct (assoc "sharperatio" items) as [x|]; simpl; [|reflexivity].
  unfold format_2f. destruct (number x); simpl; [discriminate|reflexivity].
Qed.

(** The four sections in a row, and the report, append. *)
Lemma report_sections_writer (a : Analysis) :
  writer (report_sharpe (sharpe_ratio a);;
          report_drawdown (drawdown a);;
          report_returns (returns a);;
          report_trades (trade_analyzer a)).
Proof.
  apply writer_bind; [apply report_sharpe_writer|intros _].
  apply writer_bind; [apply report_drawdown_writer|intros _].
  apply writer_bind; [apply report_returns_writer|intros _].
  apply report_trades_writer.
Qed.

Lemma report_writer (a : Analysis) : writer (report a).
Proof.
  unfold report.
  apply writer_bind; [apply writer_print|intros _].
  apply writer_bind; [apply writer_print|intros _].
  apply report_sections_writer.
Qed.

(** X7.  The Sharpe section ends without an exception exactly when the
    analysis is [None], or a dictionary whose [sharperatio] is a number;
    when it raises it has printed nothing. *)
Theorem report_sharpe_ok_iff (v : PyVal) (out : list Line) :
  (fst (report_sharpe v out) = inr tt <->
   v = PyNone \/
   exists items x q, v = PyDict items /\
                     assoc "sharperatio" items = Some x /\
                     number x = Some q) /\
  (forall e, fst (report_sharpe v out) = inl e ->
             snd (report_sharpe v out) = out).
Proof.
  unfold report_sharpe.
  destruct v as [|z|q|items]; simpl; unfold mbind, Rep_bind, getitem; simpl.
  - split; [|discriminate]. split; auto.
  - split; [|reflexivity]. split; [discriminate|].
    intros [H|(? & ? & ? & H & _)]; discriminate.
  - split; [|reflexivity]. split; [discriminate|].
    intros [H|(? & ? & ? & H & _)]; discriminate.
  - destruct (assoc "sharperatio" items) as [x|] eqn:Ea; simpl.
    + unfold format_2f. destruct (number x) as [q|] eqn:En; simpl.
      * split; [|discriminate]. split; [|reflexivity].
        intros _. right. exists items, x, q. auto.
      * split; [|reflexivity]. split; [discriminate|].
        intros [H|(items' & x' & q' & H & Ha & Hn)]; [discriminate|].
        injection H as <-. congruence.
    + split; [|reflexivity]. split; [discriminate|].
      intros [H|(items' & x' & q' & H & Ha & Hn)]; [discriminate|].
      injection H as <-. congruence.
Qed.



(** X10.  The trade statistics are printed only behind the guard: unless
    [total.closed] is a number above zero, the section prints nothing (it
    raised) or exactly the empty line and the no-trades line. *)
Theorem report_trades_statistics_guarded (ta : PyVal) (out : list Line) :
  (exists c q, eval (attr2 ta "total" "closed") = inr c /\
               number c = Some q /\ (0 < q)%Q) \/
  snd (report_trades ta out) = out \/
  snd (report_trades ta out) = out ++ [[]; no_trades_line].
Proof.
  unfold report_trades, mbind, Rep_bind.
  rewrite attr2_pure.
  destruct (eval (attr2 ta "total" "closed")) as [e|c] eqn:Ec;
    [right; left; reflexivity|].
  rewrite py_gt_pure.
  assert (Hg : eval (py_gt c (PyInt 0))
               = match number c with
                 | Some q => inr (negb (Qle_bool q (inject_Z 0)))
                 | None => inl TypeError
                 end)
    by (unfold eval, py_gt; simpl; destruct (number c); reflexivity).
  rewrite Hg. clear Hg.
  destruct (number c) as [q|] eqn:En; [|right; left; reflexivity].
  destruct (Qle_bool q (inject_Z 0)) eqn:Eq; simpl negb; cbv iota.
  - right; right. unfold print. simpl. rewrite <- app_assoc. reflexivity.
  - left. exists c, q. split; [reflexivity|]. split; [assumption|].
    apply Qnot_le_lt. intros Hle. apply Qle_bool_iff in Hle.
    unfold inject_Z in Eq. congruence.
Qed.

(** X11.  The report keeps what was printed before it and appends to it,
    first the empty line and the header; what it appends and how it ends do
    not depend on what was printed before. *)
Theorem report_appends (a : Analysis) :
  exists r rest,
    writes (report a) r ([[]; [Text "--- Backtesting Results ---"]] ++ rest).
Proof.
  pose proof (report_sections_writer a) as Hw.
  destruct Hw as (r & rest & Hw). exists r, rest. unfold report.
  change ([[]; [Text "--- Backtesting Results ---"]] ++ rest)
    with ([[]] ++ [[Text "--- Backtesting Results ---"]] ++ rest).
  eapply writes_bind_ok; [apply writes_print|].
  eapply writes_bind_ok; [apply writes_print|]. exact Hw.
Qed.

Lemma writes_fst {A} (m : Rep A) r new out :
  writes m r new -> fst (m out) = r.
Proof. intros H. rewrite H. reflexivity. Qed.

(** X12.  The report ends without an exception exactly when each of its four
    sections, run on its own, does. *)
Theorem report_ok_iff (a : Analysis) (out : list Line) :
  fst (report a out) = inr tt <->
  fst (report_sharpe (sharpe_ratio a) []) = inr tt /\
  fst (report_drawdown (drawdown a) []) = inr tt /\
  fst (report_returns (returns a) []) = inr tt /\
  fst (report_trades (trade_analyzer a) []) = inr tt.
Proof.
  destruct (report_sharpe_writer (sharpe_ratio a)) as (r1 & n1 & H1).
  destruct (report_drawdown_writer (drawdown a)) as (r2 & n2 & H2).
  destruct (report_returns_writer (returns a)) as (r3 & n3 & H3).
  destruct (report_trades_writer (trade_analyzer a)) as (r4 & n4 & H4).
  rewrite (writes_fst _ _ _ [] H1), (writes_fst _ _ _ [] H2),
          (writes_fst _ _ _ [] H3), (writes_fst _ _ _ [] H4).
  unfold report, mbind, Rep_bind, print. rewrite H1.
  destruct r1 as [e1|[]]; simpl; [split; [discriminate|intros (H & _); discriminate]|].
  rewrite H2.
  destruct r2 as [e2|[]]; simpl;
    [split; [discriminate|intros (_ & H & _); discriminate]|].
  rewrite H3.
  destruct r3 as [e3|[]]; simpl;
    [split; [discriminate|intros (_ & _ & H & _); discriminate]|].
  rewrite H4. simpl. tauto.
Qed.

(** X13.  When the Sharpe section raises, the report raises the same
    exception and has printed the header and nothing else: the drawdown,
    the returns and the trade statistics are not reached. *)
Theorem report_stops_at_sharpe (a : Analysis) (e : Exn) (out : list Line) :
  fst (report_sharpe (sharpe_ratio a) []) = inl e ->
  report a out = (inl e, out ++ [[]; [Text "--- Backtesting Results ---"]]).
Proof.
  intros He.
  destruct (report_sharpe_writer (sharpe_ratio a)) as (r1 & n1 & H1).
  pose proof (report_sharpe_raise_silent (sharpe_ratio a) [] e He) as Hn.
  rewrite H1 in He, Hn. simpl in He, Hn. subst r1 n1.
  unfold report, mbind, Rep_bind, print. rewrite H1.
  rewrite app_nil_r, <- app_assoc. reflexivity.
Qed.

Lemma report_stops_at_sharpe_witness :
  let a := mkAnalysis sharpe_undefined PyNone PyNone PyNone in
  fst (report_sharpe (sharpe_ratio a) []) = inl TypeError /\
  report a [] = (inl TypeError, [] ++ [[]; [Text "--- Backtesting Results ---"]]).
Proof.
  split; [reflexivity|].
  apply (report_stops_at_sharpe
           (mkAnalysis sharpe_undefined PyNone PyNone PyNone) TypeError []).
  reflexivity.
Defined.

(** X14.  The main block always prints the three portfolio lines before the
    report; the line that announces the plot comes after the report when it
    ended without an exception, and is not reached when it raised. *)
Theorem main_report_plot_after_report (end_value : Q) (a : Analysis) :
  exists r new,
    writes (report a) r new /\
    writes (main_report end_value a) r
      (portfolio_lines end_value ++ new ++
       match r with
       | inr _ => [[]; plot_line]
       | inl _ => []
       end).
Proof.
  destruct (report_writer a) as (r & new & Hr).
  exists r, new. split; [exact Hr|].
  intros out. unfold main_report, mbind, Rep_bind, print.
  rewrite Hr. destruct r as [e|[]].
  - unfold portfolio_lines. rewrite app_nil_r.
    rewrite <- !app_assoc. reflexivity.
  - unfold portfolio_lines. rewrite <- !app_assoc. reflexivity.
Qed.

Lemma report_trades_branches (ta : PyVal) :
  report_trades ta =
    (closed ← attr2 ta "total" "closed";
     c ← py_gt closed (PyInt 0);
     if (c : bool) then trade_statistics ta else no_trades ta).
Proof. reflexivity. Qed.

Lemma trade_statistics_writes (ta : PyVal) :
  exists r rest,
    writes (trade_statistics ta) r ([[]; statistics_title] ++ rest).
Proof.
  assert (Hw : writer (trade_statistics_body ta))
    by (unfold trade_statistics_body, getattr; repeat writer_step).
  destruct Hw as (r & rest & Hw). exists r, rest. unfold trade_statistics.
  change ([[]; statistics_title] ++ rest)
    with ([[]] ++ [statistics_title] ++ rest).
  eapply writes_bind_ok; [apply writes_print|].
  eapply writes_bind_ok; [apply writes_print|]. exact Hw.
Qed.

Lemma py_gt_zero_eval (c : PyVal) :
  eval (py_gt c (PyInt 0))
  = match number c with
    | Some q => inr (negb (Qle_bool q 0))
    | None => inl TypeError
    end.
Proof. unfold eval, py_gt. simpl. destruct (number c); reflexivity. Qed.

(** X15.  The trade section ends normally with exactly the empty line and
    the no-trades line if and only if [total.closed] is there and is a
    number that is not above zero. *)
Theorem no_trades_line_iff (ta : PyVal) (out : list Line) :
  report_trades ta out = (inr tt, out ++ [[]; no_trades_line]) <->
  exists c q, eval (attr2 ta "total" "closed") = inr c /\
              number c = Some q /\ (q <= 0)%Q.
Proof.
  split.
  - rewrite report_trades_branches. unfold mbind at 1 2, Rep_bind.
    rewrite attr2_pure.
    destruct (eval (attr2 ta "total" "closed")) as [e|c] eqn:Ec;
      [discriminate|].
    rewrite py_gt_pure, py_gt_zero_eval.
    destruct (number c) as [q|] eqn:En; [|discriminate].
    destruct (Qle_bool q 0) eqn:Eq; simpl negb; cbv iota.
    + intros _. exists c, q. repeat split; try assumption.
      apply Qle_bool_iff. exact Eq.
    + destruct (trade_statistics_writes ta) as (r & rest & Hw).
      rewrite Hw. intros H. injection H as _ H.
      apply app_inv_head in H. discriminate.
  - intros (c & q & Ec & En & Hq).
    apply (report_trades_zero_closed ta c out Ec).
    rewrite py_gt_zero_eval, En.
    apply Qle_bool_iff in Hq. rewrite Hq. reflexivity.
Qed.

(** The main block ends as the report does. *)
Lemma main_report_result (end_value : Q) (a : Analysis) (out : list Line) :
  fst (main_report end_value a out) = fst (report a []).
Proof.
  destruct (report_writer a) as (r & new & Hr).
  unfold main_report, mbind, Rep_bind, print. rewrite !Hr.
  destruct r as [e|[]]; reflexivity.
Qed.

Lemma format_2pct_no_zde (v : PyVal) :
  eval (format_2pct v) <> inl ZeroDivisionError.
Proof. unfold eval, format_2pct. destruct (number v); discriminate. Qed.

Ltac run_pure_all := first [ run_pure | rewrite format_2pct_pure ].

Ltac no_zde_all :=
  first
    [ no_zde
    | let HH := fresh in
      simpl; intros HH; injection HH as ->;
      match goal with
      | E : eval _ = inl ZeroDivisionError |- _ =>
          exact (format_2pct_no_zde _ E)
      end ].

Ltac split_eval_all :=
  match goal with
  | |- context [match eval ?m with _ => _ end] =>
      let E := fresh "E" in
      destruct (eval m) as [?e|?v] eqn:E; [no_zde_all|]
  end.

(** X16.  Whatever the analyzers return, neither the report nor the main
    block around it raises [ZeroDivisionError]: the one division, by
    [total.closed], is behind the guard [total.closed > 0]. *)
Theorem report_never_divides_by_zero
    (end_value : Q) (a : Analysis) (out : list Line) :
  fst (report a out) <> inl ZeroDivisionError /\
  fst (main_report end_value a out) <> inl ZeroDivisionError.
Proof.
  assert (Hrep : forall out', fst (report a out') <> inl ZeroDivisionError).
  { intros out'.
    unfold report, report_sharpe, report_drawdown, report_returns,
      report_trades, mbind, Rep_bind, mret, Rep_ret, getattr, print.
    destruct (is_not_none (sharpe_ratio a));
    repeat first [ progress cbv beta iota | run_pure_all | reuse_eval
                 | split_eval_all | split_if ];
      simpl; discriminate. }
  split.
  - apply Hrep.
  - rewrite (main_report_result end_value a out). apply Hrep.
Qed.
